(** * The random-user screen: a shallow embedding of [src/App.js] and of its
    second version [src/unnamed/part_000].

    Both files define one React Native screen.  The screen owns four pieces
    of state ([users], [refreshing], [loading] and, in [part_000] only,
    [lastRefreshTime]) and three asynchronous handlers ([loadData],
    [onRefresh], [addUser]) built over one fetcher ([fetchUsers]).

    The handlers are embedded in a writer-plus-exception monad: running a
    handler yields the ordered list of the effects it performs (HTTP
    requests, alerts, console output, calls of the state setters) together
    with its completion, which is either a normal return or a thrown error
    (for an [async] function: a rejected promise).  The network is a
    variable of the development: it maps the URL of a request to what
    [axios.get] does with it. *)

From stdpp Require Import base list strings pretty.
From Stdlib Require Import ZArith Lia Ascii.

Local Open Scope string_scope.
Local Open Scope list_scope.
Local Open Scope Z_scope.

(** ** Values received from the API *)

(** The values [JSON.parse] can produce.  [VNum n] is the number whose value
    is the integer [n]; fractions and integers beyond the safe range, whose
    string form is not the decimal expansion, are outside the model.  A
    string is the sequence of its code units, so that "character" below
    means code unit.  An object is the list of its own properties. *)
#[warnings="-register-all"] Inductive value : Type :=
  | VUndefined
  | VNull
  | VBool (b : bool)
  | VNum (n : Z)
  | VStr (s : string)
  | VArr (elems : list value)
  | VObj (fields : list (string * value)).

(** What a [throw] carries: the error [axios] rejects with ([response] is
    the status of the HTTP response when there is one, and absent on a
    transport failure), or the [TypeError] of the language itself. *)
Inductive error : Type :=
  | AxiosError (response : option Z)
  | TypeError.

Inductive completion (A : Type) : Type :=
  | Normal (a : A)
  | Throw (e : error).
Arguments Normal {A} a.
Arguments Throw {A} e.

Definition completion_bind {A B} (f : A → completion B) (c : completion A)
  : completion B :=
  match c with
  | Normal a => f a
  | Throw e => Throw e
  end.

#[global] Instance completion_ret : MRet completion := @Normal.
#[global] Instance completion_mbind : MBind completion := @completion_bind.

(** Own-property lookup in an object. *)
Fixpoint lookup_field (k : string) (fields : list (string * value)) : value :=
  match fields with
  | [] => VUndefined
  | (k', v) :: rest => if String.eqb k k' then v else lookup_field k rest
  end.

(** [v.k] for a property name [k] that no prototype defines (the source
    reads [id], [first_name], [last_name] and [avatar]). *)
Definition get_prop (v : value) (k : string) : completion value :=
  match v with
  | VUndefined | VNull => Throw TypeError
  | VObj fields => Normal (lookup_field k fields)
  | _ => Normal VUndefined
  end.

(** [a[i]] on an array: the element, or [undefined] past the end. *)
Definition array_index (a : list value) (i : nat) : value :=
  default VUndefined (a !! i).

(** [v[i]] for a literal index [i]. *)
Definition get_index (v : value) (i : nat) : completion value :=
  match v with
  | VUndefined | VNull => Throw TypeError
  | VStr s =>
      Normal (match String.get i s with
              | Some c => VStr (String c EmptyString)
              | None => VUndefined
              end)
  | VArr elems => Normal (array_index elems i)
  | VObj fields => Normal (lookup_field (pretty i) fields)
  | _ => Normal VUndefined
  end.

Definition has_field (k : string) (fields : list (string * value)) : bool :=
  existsb (λ kv, String.eqb k (fst kv)) fields.

(** The conversion of a value to a string, as a template literal performs
    it.  An array joins the string forms of its elements with commas, an
    absent element counting as the empty string; an object has the default
    string form unless it carries an own property [toString], which (coming
    from JSON) is not callable. *)
Fixpoint to_string (v : value) : completion string :=
  match v with
  | VUndefined => Normal "undefined"
  | VNull => Normal "null"
  | VBool b => Normal (if b then "true" else "false")
  | VNum n => Normal (pretty n)
  | VStr s => Normal s
  | VArr elems =>
      let element (x : value) : completion string :=
        match x with
        | VUndefined | VNull => Normal ""
        | _ => to_string x
        end in
      (fix join (l : list value) : completion string :=
         match l with
         | [] => Normal ""
         | [x] => element x
         | x :: rest =>
             match element x with
             | Normal s =>
                 match join rest with
                 | Normal r => Normal (s +:+ "," +:+ r)
                 | Throw e => Throw e
                 end
             | Throw e => Throw e
             end
         end) elems
  | VObj fields =>
      if has_field "toString" fields then Throw TypeError
      else Normal "[object Object]"
  end.

(** The method call [v.toString()]. *)
Definition toString (v : value) : completion string :=
  match v with
  | VUndefined | VNull => Throw TypeError
  | _ => to_string v
  end.

(** ** Effects and screen state *)

Inductive event : Type :=
  | HttpGet (url : string)
  | Alert_alert (title message : string)
  | console_error (message : string) (err : error)
  | setUsers (us : list value)
  | setUsers_fn (f : list value → list value)
  | setRefreshing (b : bool)
  | setLoading (b : bool)
  | setLastRefreshTime (t : Z).

(** The state of the component.  [lastRefreshTime] exists in [part_000]
    only; no handler of [App.js] reads or sets it. *)
Record state : Type := mkState {
  users : list value;
  refreshing : bool;
  loading : bool;
  lastRefreshTime : Z
}.

(** The arguments of the four [useState] calls. *)
Definition initial_state : state :=
  {| users := []; refreshing := false; loading := true; lastRefreshTime := 0 |}.

Definition apply_event (s : state) (e : event) : state :=
  match e with
  | setUsers us =>
      {| users := us; refreshing := refreshing s; loading := loading s;
         lastRefreshTime := lastRefreshTime s |}
  | setUsers_fn f =>
      {| users := f (users s); refreshing := refreshing s; loading := loading s;
         lastRefreshTime := lastRefreshTime s |}
  | setRefreshing b =>
      {| users := users s; refreshing := b; loading := loading s;
         lastRefreshTime := lastRefreshTime s |}
  | setLoading b =>
      {| users := users s; refreshing := refreshing s; loading := b;
         lastRefreshTime := lastRefreshTime s |}
  | setLastRefreshTime t =>
      {| users := users s; refreshing := refreshing s; loading := loading s;
         lastRefreshTime := t |}
  | HttpGet _ | Alert_alert _ _ | console_error _ _ => s
  end.

Definition run_events (s : state) (tr : list event) : state :=
  foldl apply_event s tr.


Definition is_http (e : event) : bool :=
  match e with HttpGet _ => true | _ => false end.
Definition is_alert (e : event) : bool :=
  match e with Alert_alert _ _ => true | _ => false end.

Definition network_calls (tr : list event) : list event :=
  List.filter is_http tr.
Definition notifications (tr : list event) : list event :=
  List.filter is_alert tr.

(** ** The effect monad *)

Definition M (A : Type) : Type := (list event * completion A)%type.

Definition trace {A} (m : M A) : list event := fst m.
Definition outcome {A} (m : M A) : completion A := snd m.

Definition M_ret {A} (a : A) : M A := ([], Normal a).
Definition M_bind {A B} (f : A → M B) (m : M A) : M B :=
  match m with
  | (tr, Normal a) => let '(tr', r) := f a in (tr ++ tr', r)
  | (tr, Throw e) => (tr, Throw e)
  end.
#[global] Instance M_mret : MRet M := @M_ret.
#[global] Instance M_mbind : MBind M := @M_bind.

Definition emit (e : event) : M unit := ([e], Normal tt).

(** [try { body } catch (error) { handler }] *)
Definition try_catch {A} (body : M A) (handler : error → M A) : M A :=
  match body with
  | (tr, Normal a) => (tr, Normal a)
  | (tr, Throw e) => let '(tr', r) := handler e in (tr ++ tr', r)
  end.

(** The response [axios.get] resolves with; the source reads its [data]
    only, which for this endpoint is a JSON array. *)
Record axios_response : Type := mkResponse { data : list value }.

(** What [axios.get] does with a request: it resolves with the response, or
    rejects.  [axios] rejects on a transport failure ([Rejected None]) and
    on any response whose status is not 2xx ([Rejected (Some status)]). *)
Inductive axios_result : Type :=
  | Resolved (response : axios_response)
  | Rejected (response : option Z).

(** [error.response && error.response.status === 429] *)
Definition is_429 (e : error) : bool :=
  match e with
  | AxiosError (Some status) => status =? 429
  | _ => false
  end.

(** ** Reading a query parameter off a URL

    Used to state which [size] a request asks for. *)

Fixpoint split_on (sep : ascii) (s : string) : list string :=
  match s with
  | EmptyString => [EmptyString]
  | String c rest =>
      if Ascii.eqb c sep then EmptyString :: split_on sep rest
      else match split_on sep rest with
           | [] => [String c EmptyString]
           | piece :: pieces => String c piece :: pieces
           end
  end.

Fixpoint strip_prefix (p s : string) : option string :=
  match p, s with
  | EmptyString, _ => Some s
  | String a p', String b s' => if Ascii.eqb a b then strip_prefix p' s' else None
  | String _ _, EmptyString => None
  end.

Fixpoint first_some {A} (l : list (option A)) : option A :=
  match l with
  | [] => None
  | Some a :: _ => Some a
  | None :: rest => first_some rest
  end.

(** The value of the parameter [name] in the query part of [url]. *)
Definition query_param (name url : string) : option string :=
  match split_on "?" url with
  | _ :: query :: _ =>
      first_some (map (strip_prefix (name +:+ "=")) (split_on "&" query))
  | _ => None
  end.

(** ** Code shared by the two files *)

Section Handlers.

(** The network at the time of the call. *)
Variable net : string → axios_result.

Definition axios_get (url : string) : M axios_response :=
  ([HttpGet url],
   match net url with
   | Resolved response => Normal response
   | Rejected response => Throw (AxiosError response)
   end).

(** [App.js] line 9, [part_000] line 20. *)
Definition API_URL : string :=
  "https://random-data-api.com/api/users/random_user?size=10".

(** [App.js] lines 12-26, [part_000] lines 23-37. *)
Definition fetchUsers : M (list value) :=
  try_catch
    (response ← axios_get API_URL;
     mret (data response))
    (λ error,
      (if is_429 error then
         emit (Alert_alert "Too Many Requests"
                           "Please wait before refreshing again.");;
         emit (console_error "Error fetching users: Too Many Requests" error)
       else
         emit (console_error "Error fetching users" error);;
         emit (Alert_alert "Error"
                           "Failed to load users. Please try again later."));;
      mret []).

(** [App.js] lines 35-39, [part_000] lines 47-51. *)
Definition loadData : M unit :=
  fetchedUsers ← fetchUsers;
  emit (setUsers fetchedUsers);;
  emit (setLoading false).

End Handlers.

(** [keyExtractor] of the list ([App.js] line 89, [part_000] line 115). *)
Definition keyExtractor (item : value) : completion string :=
  id ← get_prop item "id";
  toString id.

(** The keys of the rows of a rendered sequence, in order. *)
Fixpoint row_keys (items : list value) : completion (list string) :=
  match items with
  | [] => Normal []
  | item :: rest =>
      k ← keyExtractor item;
      ks ← row_keys rest;
      Normal (k :: ks)
  end.

(** What the component returns ([App.js] lines 75-101, [part_000] lines
    101-127): the spinner while [loading] holds, and otherwise the list,
    which is handed [users] as its data and [refreshing] for its refresh
    control (the floating button is always there with the list). *)
Inductive screen : Type :=
  | ActivityIndicator (size color : string)
  | FlatList (data : list value) (refreshing : bool).

Definition render (s : state) : screen :=
  if loading s then ActivityIndicator "large" "#2196F3"
  else FlatList (users s) (refreshing s).

(** What happens to the mounted component: the effect of the first render
    runs [loadData], a pull on the list runs [onRefresh], a press on the
    button runs [addUser].  Each carries the network of its moment, and a
    pull the reading of the clock. *)
Inductive action : Type :=
  | Mount (net : string → axios_result)
  | PullToRefresh (net : string → axios_result) (now : Z)
  | PressAdd (net : string → axios_result).

(** ** [src/App.js] *)

Module App.
Section Handlers.

Variable net : string → axios_result.

(** Lines 44-49. *)
Definition onRefresh : M unit :=
  emit (setRefreshing true);;
  fetchedUsers ← fetchUsers net;
  emit (setUsers fetchedUsers);;
  emit (setRefreshing false).

(** Lines 52-59. *)
Definition addUser : M unit :=
  try_catch
    (newUserResponse ←
       axios_get net "https://random-data-api.com/api/users/random_user?size=1";
     emit (setUsers_fn
             (λ prevUsers, array_index (data newUserResponse) 0 :: prevUsers)))
    (λ error,
      emit (console_error "Error fetching new user: " error)).

End Handlers.

(** The properties [UserAvatar] is given. *)
Inductive avatar_props : Type :=
  | UserAvatar_name (size : Z) (name : string)
  | UserAvatar_src (size : Z) (src : value).

Record row : Type := mkRow { name_text : string; avatar : avatar_props }.

(** Lines 62-73; [OS] is [Platform.OS]. *)
Definition renderItem (OS : string) (item : value) : completion row :=
  first_name ← get_prop item "first_name";
  s1 ← to_string first_name;
  last_name ← get_prop item "last_name";
  s2 ← to_string last_name;
  let name := s1 +:+ " " +:+ s2 in
  if String.eqb OS "ios" then
    first_name ← get_prop item "first_name";
    t1 ← to_string first_name;
    last_name ← get_prop item "last_name";
    t2 ← to_string last_name;
    Normal (mkRow name (UserAvatar_name 50 (t1 +:+ " " +:+ t2)))
  else
    src ← get_prop item "avatar";
    Normal (mkRow name (UserAvatar_src 50 src)).

(** The handler an action runs, one action after the other: a handler has
    finished before the next one starts. *)
Definition handle (s : state) (a : action) : M unit :=
  match a with
  | Mount net => loadData net
  | PullToRefresh net _ => onRefresh net
  | PressAdd net => addUser net
  end.

Definition step (s : state) (a : action) : state :=
  run_events s (trace (handle s a)).

Definition run (s : state) (acts : list action) : state := foldl step s acts.

(** Everything a run of actions does, in order. *)
Fixpoint run_trace (s : state) (acts : list action) : list event :=
  match acts with
  | [] => []
  | a :: rest => trace (handle s a) ++ run_trace (step s a) rest
  end.

End App.

(** ** [src/unnamed/part_000] *)

Module Part000.
Section Handlers.

Variable net : string → axios_result.

(** Lines 56-68.  [lastRefreshTime] is the value of the state the callback
    closes over, [currentTime] the value of [Date.now()]. *)
Definition onRefresh (lastRefreshTime currentTime : Z) : M unit :=
  if currentTime - lastRefreshTime <? 10000 then
    emit (Alert_alert "Too Many Refreshes"
                      "Please wait 10 seconds before refreshing again.")
  else
    emit (setRefreshing true);;
    fetchedUsers ← fetchUsers net;
    emit (setUsers fetchedUsers);;
    emit (setRefreshing false);;
    emit (setLastRefreshTime currentTime).

(** Lines 71-83. *)
Definition addUser : M unit :=
  try_catch
    (newUserResponse ←
       axios_get net "https://random-data-api.com/api/users/random_user?size=1";
     emit (setUsers_fn
             (λ prevUsers, array_index (data newUserResponse) 0 :: prevUsers)))
    (λ error,
      if is_429 error then
        emit (Alert_alert "Too Many Requests"
                          "Please wait before adding more users.")
      else
        emit (console_error "Error fetching new user: " error);;
        emit (Alert_alert "Error"
                          "Failed to add a new user. Please try again.")).

End Handlers.

(** What a row shows next to the name. *)
Inductive avatar_view : Type :=
  | Initials (text : string)
  | Image (uri : value).

Record row : Type := mkRow { name_text : string; avatar : avatar_view }.

(** Lines 86-99; [OS] is [Platform.OS]. *)
Definition renderItem (OS : string) (item : value) : completion row :=
  first_name ← get_prop item "first_name";
  s1 ← to_string first_name;
  last_name ← get_prop item "last_name";
  s2 ← to_string last_name;
  let name := s1 +:+ " " +:+ s2 in
  if String.eqb OS "ios" then
    first_name ← get_prop item "first_name";
    f0 ← get_index first_name 0;
    t1 ← to_string f0;
    last_name ← get_prop item "last_name";
    l0 ← get_index last_name 0;
    t2 ← to_string l0;
    Normal (mkRow name (Initials (t1 +:+ t2)))
  else
    uri ← get_prop item "avatar";
    Normal (mkRow name (Image uri)).

(** The handler an action runs, one action after the other: a handler has
    finished before the next one starts, so that [onRefresh] closes over
    the [lastRefreshTime] its predecessors left. *)
Definition handle (s : state) (a : action) : M unit :=
  match a with
  | Mount net => loadData net
  | PullToRefresh net now => onRefresh net (lastRefreshTime s) now
  | PressAdd net => addUser net
  end.

Definition step (s : state) (a : action) : state :=
  run_events s (trace (handle s a)).

Definition run (s : state) (acts : list action) : state := foldl step s acts.

(** The clock readings of the pulls that reached the network, in order. *)
Fixpoint refresh_fetch_times (s : state) (acts : list action) : list Z :=
  match acts with
  | [] => []
  | a :: rest =>
      match a, network_calls (trace (handle s a)) with
      | PullToRefresh _ now, _ :: _ => now :: refresh_fetch_times (step s a) rest
      | _, _ => refresh_fetch_times (step s a) rest
      end
  end.

End Part000.

(** The URL of the request of [addUser], as both files write it. *)
Definition ADD_URL : string :=
  "https://random-data-api.com/api/users/random_user?size=1".

(** Two records and two networks to evaluate the handlers on. *)
Definition ada : value :=
  VObj [("id", VNum 42); ("first_name", VStr "Ada");
        ("last_name", VStr "Lovelace"); ("avatar", VStr "https://a/42.png")].
Definition alan : value :=
  VObj [("id", VNum 7); ("first_name", VStr "Alan");
        ("last_name", VStr "Turing"); ("avatar", VStr "https://a/7.png")].

Definition net_ok (batch : list value) : string → axios_result :=
  λ _, Resolved (mkResponse batch).
Definition net_down (response : option Z) : string → axios_result :=
  λ _, Rejected response.

(** ** Vocabulary of the statements *)

(** The sequence [fetchUsers] hands to its caller: the body of the response,
    or the empty sequence when the request failed. *)
Definition fetched (net : string → axios_result) : list value :=
  match net API_URL with
  | Resolved response => data response
  | Rejected _ => []
  end.

(** [new] is [old] with [rec] put in front. *)
Definition prepended (rec : value) (old new : list value) : Prop :=
  length new = S (length old) ∧
  new !! 0%nat = Some rec ∧
  ∀ i : nat, new !! S i = old !! i.

Definition is_number (v : value) : bool :=
  match v with VNum _ => true | _ => false end.
Definition is_string (v : value) : bool :=
  match v with VStr _ => true | _ => false end.

(** Each time of [times] is at least 10000 past the one before it, the
    first one past [prev]. *)
Fixpoint spaced (prev : Z) (times : list Z) : Prop :=
  match times with
  | [] => True
  | t :: rest => prev + 10000 ≤ t ∧ spaced t rest
  end.

Definition is_press (a : action) : bool :=
  match a with PressAdd _ => true | _ => false end.

(** The one effect that writes the recorded time. *)
Definition sets_time (e : event) : bool :=
  match e with setLastRefreshTime _ => true | _ => false end.

(** What the network does with the request of an action. *)
Definition request_of (a : action) : axios_result :=
  match a with
  | Mount net | PullToRefresh net _ => net API_URL
  | PressAdd net => net ADD_URL
  end.

(** The first element of the body a press on the button receives, when its
    request resolves. *)
Definition added_record (a : action) : option value :=
  match a with
  | PressAdd net =>
      match net ADD_URL with
      | Resolved response => Some (array_index (data response) 0)
      | Rejected _ => None
      end
  | _ => None
  end.

(** * Properties *)

(** ** The pieces of the monad *)

Lemma run_events_app s tr1 tr2 :
  run_events s (tr1 ++ tr2) = run_events (run_events s tr1) tr2.
Proof. apply foldl_app. Qed.

Lemma is_429_spec (response : option Z) :
  is_429 (AxiosError response) = bool_decide (response = Some 429).
Proof.
  destruct response as [status|]; simpl; [|done].
  destruct (Z.eqb_spec status 429) as [->|Hne].
  - by rewrite bool_decide_eq_true_2.
  - rewrite bool_decide_eq_false_2; [done|]. by intros [= ->].
Qed.

(** ** [fetchUsers], outcome by outcome *)

Lemma fetchUsers_resolved net response :
  net API_URL = Resolved response →
  fetchUsers net = ([HttpGet API_URL], Normal (data response)).
Proof.
  intros H. unfold fetchUsers, axios_get, mbind, M_mbind, M_bind, try_catch.
  by rewrite H.
Qed.

Lemma fetchUsers_rate_limited net :
  net API_URL = Rejected (Some 429) →
  fetchUsers net =
    ([HttpGet API_URL;
      Alert_alert "Too Many Requests" "Please wait before refreshing again.";
      console_error "Error fetching users: Too Many Requests"
                    (AxiosError (Some 429))],
     Normal []).
Proof.
  intros H. unfold fetchUsers, axios_get, mbind, M_mbind, M_bind, try_catch.
  by rewrite H.
Qed.

Lemma fetchUsers_failed net response :
  net API_URL = Rejected response → response ≠ Some 429 →
  fetchUsers net =
    ([HttpGet API_URL;
      console_error "Error fetching users" (AxiosError response);
      Alert_alert "Error" "Failed to load users. Please try again later."],
     Normal []).
Proof.
  intros H Hne. unfold fetchUsers, axios_get, mbind, M_mbind, M_bind, try_catch.
  rewrite H. cbv iota beta. rewrite is_429_spec, bool_decide_eq_false_2 by done.
  reflexivity.
Qed.

Lemma fetchUsers_outcome net : outcome (fetchUsers net) = Normal (fetched net).
Proof.
  unfold fetched. destruct (net API_URL) as [r|resp] eqn:H.
  - by rewrite (fetchUsers_resolved _ _ H).
  - destruct (decide (resp = Some 429)) as [->|Hne].
    + by rewrite (fetchUsers_rate_limited _ H).
    + by rewrite (fetchUsers_failed _ _ H Hne).
Qed.

Lemma fetchUsers_network_calls net :
  network_calls (trace (fetchUsers net)) = [HttpGet API_URL].
Proof.
  destruct (net API_URL) as [r|resp] eqn:H.
  - by rewrite (fetchUsers_resolved _ _ H).
  - destruct (decide (resp = Some 429)) as [->|Hne].
    + by rewrite (fetchUsers_rate_limited _ H).
    + by rewrite (fetchUsers_failed _ _ H Hne).
Qed.

(** [fetchUsers] calls no state setter. *)
Lemma fetchUsers_keeps_state net s :
  run_events s (trace (fetchUsers net)) = s.
Proof.
  destruct (net API_URL) as [r|resp] eqn:H.
  - by rewrite (fetchUsers_resolved _ _ H).
  - destruct (decide (resp = Some 429)) as [->|Hne].
    + by rewrite (fetchUsers_rate_limited _ H).
    + by rewrite (fetchUsers_failed _ _ H Hne).
Qed.

(** ** The fetcher absorbs every failure *)

(** C2.  Whatever the network does with the request, [fetchUsers] returns
    normally: it never throws to its caller.  When the request resolves it
    returns the body and shows no alert.  When the request is rejected it
    returns the empty sequence and shows exactly one alert, and the alert
    shown for a response of status 429 differs, in title and in message,
    from the one shown for every other failure. *)
Theorem fetchUsers_never_raises (net : string → axios_result) :
  ∃ result : list value,
    outcome (fetchUsers net) = Normal result ∧
    match net API_URL with
    | Resolved response =>
        result = data response ∧ notifications (trace (fetchUsers net)) = []
    | Rejected response =>
        result = [] ∧
        notifications (trace (fetchUsers net)) =
          [if bool_decide (response = Some 429)
           then Alert_alert "Too Many Requests"
                            "Please wait before refreshing again."
           else Alert_alert "Error"
                            "Failed to load users. Please try again later."]
    end ∧
    "Too Many Requests" ≠ "Error" ∧
    "Please wait before refreshing again."
      ≠ "Failed to load users. Please try again later.".
Proof.
  exists (fetched net). split; [apply fetchUsers_outcome|].
  split; [|split; discriminate].
  unfold fetched. destruct (net API_URL) as [r|resp] eqn:H.
  - by rewrite (fetchUsers_resolved _ _ H).
  - split; [done|]. destruct (decide (resp = Some 429)) as [->|Hne].
    + by rewrite (fetchUsers_rate_limited _ H).
    + rewrite (fetchUsers_failed _ _ H Hne).
      by rewrite bool_decide_eq_false_2.
Qed.

(** ** The initial load *)

Lemma loadData_unfold net :
  loadData net =
    (trace (fetchUsers net) ++ [setUsers (fetched net); setLoading false],
     Normal tt).
Proof.
  unfold loadData. pose proof (fetchUsers_outcome net) as H.
  destruct (fetchUsers net) as [tr [us|e]]; simpl in H; [|discriminate].
  by injection H as ->.
Qed.

(** C3.  Whatever the outcome of the initial fetch (success, 429, any other
    failure), [loadData] returns normally, the record sequence it leaves is
    the result of the fetch (the body on success, the empty sequence on
    failure, the previous records gone), and the loading flag is false. *)
Theorem loadData_always_ready (net : string → axios_result) (s : state) :
  outcome (loadData net) = Normal tt ∧
  outcome (fetchUsers net)
    = Normal (users (run_events s (trace (loadData net)))) ∧
  users (run_events s (trace (loadData net))) =
    match net API_URL with
    | Resolved response => data response
    | Rejected _ => []
    end ∧
  loading (run_events s (trace (loadData net))) = false.
Proof.
  rewrite loadData_unfold. simpl.
  rewrite run_events_app, fetchUsers_keeps_state. simpl.
  split; [done|]. split; [apply fetchUsers_outcome|done].
Qed.

(** ** Pull to refresh *)

Lemma notifications_app tr1 tr2 :
  notifications (tr1 ++ tr2) = notifications tr1 ++ notifications tr2.
Proof. apply List.filter_app. Qed.

Lemma network_calls_app tr1 tr2 :
  network_calls (tr1 ++ tr2) = network_calls tr1 ++ network_calls tr2.
Proof. apply List.filter_app. Qed.

Lemma App_onRefresh_unfold net :
  App.onRefresh net =
    (setRefreshing true :: trace (fetchUsers net) ++
       [setUsers (fetched net); setRefreshing false],
     Normal tt).
Proof.
  unfold App.onRefresh. pose proof (fetchUsers_outcome net) as Hf.
  destruct (fetchUsers net) as [tr [us|e]]; simpl in Hf; [|discriminate].
  by injection Hf as ->.
Qed.

Lemma App_onRefresh_step net s :
  run_events s (trace (App.onRefresh net)) =
    {| users := fetched net; refreshing := false; loading := loading s;
       lastRefreshTime := lastRefreshTime s |}.
Proof.
  rewrite App_onRefresh_unfold. cbn [trace fst].
  change (setRefreshing true :: ?l) with ([setRefreshing true] ++ l).
  by rewrite !run_events_app, fetchUsers_keeps_state.
Qed.

Lemma App_onRefresh_network_calls net :
  network_calls (trace (App.onRefresh net)) = [HttpGet API_URL].
Proof.
  rewrite App_onRefresh_unfold. cbn [trace fst].
  change (setRefreshing true :: ?l) with ([setRefreshing true] ++ l).
  by rewrite !network_calls_app, fetchUsers_network_calls.
Qed.

Lemma onRefresh_rejected net lastRefreshTime currentTime :
  currentTime - lastRefreshTime < 10000 →
  Part000.onRefresh net lastRefreshTime currentTime =
    ([Alert_alert "Too Many Refreshes"
                  "Please wait 10 seconds before refreshing again."],
     Normal tt).
Proof.
  intros H. unfold Part000.onRefresh.
  by destruct (Z.ltb_spec (currentTime - lastRefreshTime) 10000); [|lia].
Qed.

Lemma onRefresh_accepted_unfold net lastRefreshTime currentTime :
  ¬ currentTime - lastRefreshTime < 10000 →
  Part000.onRefresh net lastRefreshTime currentTime =
    (setRefreshing true :: trace (fetchUsers net) ++
       [setUsers (fetched net); setRefreshing false;
        setLastRefreshTime currentTime],
     Normal tt).
Proof.
  intros H. unfold Part000.onRefresh.
  destruct (Z.ltb_spec (currentTime - lastRefreshTime) 10000); [lia|].
  pose proof (fetchUsers_outcome net) as Hf.
  destruct (fetchUsers net) as [tr [us|e]]; simpl in Hf; [|discriminate].
  by injection Hf as ->.
Qed.








(** C4, as the specification states it, fails in [App.js]: a refresh goes
    through there, and replaces the list, without any time being
    recorded. *)
Lemma App_onRefresh_records_no_time :
  let s := mkState [ada] false false 1000 in
  let a := PullToRefresh (net_ok [alan]) 50000 in
  users (App.step s a) = [alan] ∧
  Forall (λ e, sets_time e = false) (trace (App.handle s a)) ∧
  lastRefreshTime (App.step s a) = 1000 ∧
  lastRefreshTime (App.step s a) ≠ 50000.
Proof. repeat split; try done. by repeat constructor. Qed.

(** C4, amended.  In [part_000] a refresh requested 10000 ms or more past
    the recorded time goes through: the handler sets the refreshing flag,
    runs [fetchUsers] (one GET with [size=10]) with the flag set, replaces
    the record sequence by the result of the fetch, whatever the sequence
    held before, clears the flag and records [currentTime], the clock as
    read when the handler started, as the time of the last refresh.  In
    [App.js] every refresh goes through and does the same, except that it
    records no time. *)
Theorem onRefresh_accepted
    (net : string → axios_result) (s : state) (currentTime : Z) :
  (¬ currentTime - lastRefreshTime s < 10000 →
   let m := Part000.onRefresh net (lastRefreshTime s) currentTime in
   outcome m = Normal tt ∧
   outcome (fetchUsers net) = Normal (fetched net) ∧
   trace m =
     [setRefreshing true] ++ trace (fetchUsers net) ++
     [setUsers (fetched net); setRefreshing false;
      setLastRefreshTime currentTime] ∧
   network_calls (trace m) = [HttpGet API_URL] ∧
   query_param "size" API_URL = Some "10" ∧
   refreshing
     (run_events s ([setRefreshing true] ++ trace (fetchUsers net))) = true ∧
   run_events s (trace m) =
     {| users := fetched net; refreshing := false; loading := loading s;
        lastRefreshTime := currentTime |}) ∧
  (let m := App.onRefresh net in
   outcome m = Normal tt ∧
   trace m =
     [setRefreshing true] ++ trace (fetchUsers net) ++
     [setUsers (fetched net); setRefreshing false] ∧
   network_calls (trace m) = [HttpGet API_URL] ∧
   refreshing
     (run_events s ([setRefreshing true] ++ trace (fetchUsers net))) = true ∧
   run_events s (trace m) =
     {| users := fetched net; refreshing := false; loading := loading s;
        lastRefreshTime := lastRefreshTime s |}).
Proof.
  split.
  - intros H m. subst m. rewrite (onRefresh_accepted_unfold _ _ _ H).
    split; [done|]. split; [apply fetchUsers_outcome|]. split; [done|].
    split.
    { cbn [trace fst].
      change (setRefreshing true :: ?l) with ([setRefreshing true] ++ l).
      by rewrite !network_calls_app, fetchUsers_network_calls. }
    split; [done|]. split.
    + by rewrite run_events_app, fetchUsers_keeps_state.
    + cbn [trace fst].
      change (setRefreshing true :: ?l) with ([setRefreshing true] ++ l).
      by rewrite !run_events_app, fetchUsers_keeps_state.
  - intros m. subst m.
    rewrite App_onRefresh_network_calls, App_onRefresh_step.
    rewrite App_onRefresh_unfold. cbn [trace fst outcome snd].
    repeat split; try done.
    by rewrite run_events_app, fetchUsers_keeps_state.
Qed.

Lemma onRefresh_accepted_witness :
  let s := mkState [ada] false false 1000 in
  run_events s (trace (Part000.onRefresh (net_ok [alan]) (lastRefreshTime s) 11000))
    = mkState [alan] false false 11000.
Proof.
  intros s.
  destruct (onRefresh_accepted (net_ok [alan]) s 11000) as (Hin & _).
  destruct Hin as (_ & _ & _ & _ & _ & _ & Hstate); [simpl; lia|].
  exact Hstate.
Defined.

(** ** The add action *)

Lemma App_addUser_resolved net response :
  net ADD_URL = Resolved response →
  App.addUser net =
    ([HttpGet ADD_URL;
      setUsers_fn (λ prevUsers, array_index (data response) 0 :: prevUsers)],
     Normal tt).
Proof.
  unfold ADD_URL. intros H.
  unfold App.addUser, axios_get, mbind, M_mbind, M_bind, try_catch.
  by rewrite H.
Qed.

Lemma Part000_addUser_resolved net response :
  net ADD_URL = Resolved response →
  Part000.addUser net =
    ([HttpGet ADD_URL;
      setUsers_fn (λ prevUsers, array_index (data response) 0 :: prevUsers)],
     Normal tt).
Proof.
  unfold ADD_URL. intros H.
  unfold Part000.addUser, axios_get, mbind, M_mbind, M_bind, try_catch.
  by rewrite H.
Qed.

Lemma App_addUser_rejected net response :
  net ADD_URL = Rejected response →
  App.addUser net =
    ([HttpGet ADD_URL;
      console_error "Error fetching new user: " (AxiosError response)],
     Normal tt).
Proof.
  unfold ADD_URL. intros H.
  unfold App.addUser, axios_get, mbind, M_mbind, M_bind, try_catch.
  by rewrite H.
Qed.

Lemma Part000_addUser_rejected net response :
  net ADD_URL = Rejected response →
  Part000.addUser net =
    (HttpGet ADD_URL ::
       (if bool_decide (response = Some 429)
        then [Alert_alert "Too Many Requests"
                          "Please wait before adding more users."]
        else [console_error "Error fetching new user: " (AxiosError response);
              Alert_alert "Error"
                          "Failed to add a new user. Please try again."]),
     Normal tt).
Proof.
  unfold ADD_URL. intros H.
  unfold Part000.addUser, axios_get, mbind, M_mbind, M_bind, try_catch.
  rewrite H. cbv iota beta. rewrite is_429_spec.
  by destruct (bool_decide (response = Some 429)).
Qed.

Lemma prepended_cons rec old : prepended rec old (rec :: old).
Proof. by repeat split. Qed.

(** C5.  When the request of the add action resolves with a body whose
    first element is [rec], the new record sequence is one longer than the
    old one, holds [rec] at position 0 and every old record one position
    further: the sequence is extended in front, not replaced.  This holds in
    both files, and the rest of the state is untouched. *)
Theorem addUser_prepends
    (net : string → axios_result) (s : state)
    (response : axios_response) (rec : value) (rest : list value) :
  net ADD_URL = Resolved response →
  data response = rec :: rest →
  prepended rec (users s) (users (run_events s (trace (App.addUser net)))) ∧
  prepended rec (users s)
            (users (run_events s (trace (Part000.addUser net)))) ∧
  users (run_events s (trace (App.addUser net))) = rec :: users s ∧
  users (run_events s (trace (Part000.addUser net))) = rec :: users s.
Proof.
  intros H Hdata.
  rewrite (App_addUser_resolved _ _ H), (Part000_addUser_resolved _ _ H).
  simpl. rewrite Hdata. simpl.
  auto using prepended_cons.
Qed.

Lemma addUser_prepends_witness :
  let s := mkState [alan] false false 0 in
  users (run_events s (trace (Part000.addUser (net_ok [ada])))) = [ada; alan].
Proof.
  intros s.
  destruct (addUser_prepends (net_ok [ada]) s (mkResponse [ada]) ada [])
    as (_ & _ & _ & H); [reflexivity | reflexivity | exact H].
Defined.

(** C6, as the specification states it, fails in [App.js]: there a failed
    add action shows no alert. *)
Lemma App_addUser_failure_shows_no_alert :
  net_down (Some 500) ADD_URL = Rejected (Some 500) ∧
  notifications (trace (App.addUser (net_down (Some 500)))) = [].
Proof. by split. Qed.

(** C6, amended.  When the request of the add action is rejected, the
    handler returns normally and the state, the record sequence included,
    is exactly what it was, in both files.  [part_000] then shows exactly
    one alert, worded differently for status 429 and for every other
    failure; [App.js] shows none and only writes the error to the
    console. *)
Theorem addUser_failure
    (net : string → axios_result) (s : state) (response : option Z) :
  net ADD_URL = Rejected response →
  (outcome (App.addUser net) = Normal tt ∧
   run_events s (trace (App.addUser net)) = s ∧
   notifications (trace (App.addUser net)) = [] ∧
   trace (App.addUser net) =
     [HttpGet ADD_URL;
      console_error "Error fetching new user: " (AxiosError response)]) ∧
  (outcome (Part000.addUser net) = Normal tt ∧
   run_events s (trace (Part000.addUser net)) = s ∧
   notifications (trace (Part000.addUser net)) =
     [if bool_decide (response = Some 429)
      then Alert_alert "Too Many Requests"
                       "Please wait before adding more users."
      else Alert_alert "Error"
                       "Failed to add a new user. Please try again."]).
Proof.
  intros H.
  rewrite (App_addUser_rejected _ _ H), (Part000_addUser_rejected _ _ H).
  split; [done|].
  by destruct (bool_decide (response = Some 429)).
Qed.

Lemma addUser_failure_witness :
  let s := mkState [alan] false false 0 in
  run_events s (trace (App.addUser (net_down None))) = s ∧
  run_events s (trace (Part000.addUser (net_down None))) = s ∧
  notifications (trace (Part000.addUser (net_down None))) =
    [Alert_alert "Error" "Failed to add a new user. Please try again."].
Proof.
  intros s.
  destruct (addUser_failure (net_down None) s None)
    as ((_ & H1 & _) & (_ & H2 & H3)); [reflexivity|].
  auto.
Defined.

(** ** The requests *)

(** C7, as the specification states it, fails: the fetcher takes no count,
    so it is not true that for every count [N] its request carries
    [size=N]. *)
Lemma fetchUsers_size_is_not_a_parameter :
  ¬ ∀ (N : Z) (net : string → axios_result),
      ∃ url, network_calls (trace (fetchUsers net)) = [HttpGet url] ∧
             query_param "size" url = Some (pretty N).
Proof.
  intros H. destruct (H 1 (net_ok [])) as (url & Hcalls & Hsize).
  rewrite fetchUsers_network_calls in Hcalls. injection Hcalls as <-.
  vm_compute in Hsize. discriminate.
Qed.

(** C7, amended.  There is no fetcher with a count.  [fetchUsers] takes no
    argument and every invocation of it issues exactly one GET, to the URL
    with [size=10]; the add action does not go through [fetchUsers] but
    issues, in both files, exactly one GET of its own, to the URL with
    [size=1]. *)
Theorem requests_have_fixed_sizes (net : string → axios_result) :
  network_calls (trace (fetchUsers net)) = [HttpGet API_URL] ∧
  query_param "size" API_URL = Some (pretty 10) ∧
  network_calls (trace (App.addUser net)) = [HttpGet ADD_URL] ∧
  network_calls (trace (Part000.addUser net)) = [HttpGet ADD_URL] ∧
  query_param "size" ADD_URL = Some (pretty 1).
Proof.
  split; [apply fetchUsers_network_calls|]. split; [done|].
  destruct (net ADD_URL) as [r|resp] eqn:H.
  - by rewrite (App_addUser_resolved _ _ H), (Part000_addUser_resolved _ _ H).
  - rewrite (App_addUser_rejected _ _ H), (Part000_addUser_rejected _ _ H).
    by destruct (bool_decide (resp = Some 429)).
Qed.

(** ** Row keys *)

Lemma keyExtractor_of_id item id :
  get_prop item "id" = Normal id → keyExtractor item = toString id.
Proof. unfold keyExtractor. by intros ->. Qed.

Lemma keyExtractor_inv item k :
  keyExtractor item = Normal k →
  ∃ id, get_prop item "id" = Normal id ∧ toString id = Normal k.
Proof.
  unfold keyExtractor. destruct (get_prop item "id") as [id|e]; [|done].
  intros H. by exists id.
Qed.

Lemma row_keys_inv batch : ∀ keys,
  row_keys batch = Normal keys →
  Forall2 (λ item k, ∃ id, get_prop item "id" = Normal id ∧
                           toString id = Normal k) batch keys.
Proof.
  induction batch as [|item batch IH]; simpl; intros keys H.
  - injection H as <-. constructor.
  - destruct (keyExtractor item) as [k|e] eqn:Hk; [|done]. simpl in H.
    destruct (row_keys batch) as [ks|e]; [|done]. simpl in H.
    injection H as <-. constructor; [by apply keyExtractor_inv | by apply IH].
Qed.

Lemma toString_inj_numbers x y k :
  is_number x → is_number y →
  toString x = Normal k → toString y = Normal k → x = y.
Proof.
  destruct x as [| | |n| | |]; try done. destruct y as [| | |m| | |]; try done.
  simpl. intros _ _ [= <-] [= Heq]. f_equal. by apply (inj pretty).
Qed.

Lemma toString_inj_strings x y k :
  is_string x → is_string y →
  toString x = Normal k → toString y = Normal k → x = y.
Proof.
  destruct x as [| | | |a| |]; try done. destruct y as [| | | |b| |]; try done.
  simpl. by intros _ _ [= <-] [= <-].
Qed.

Lemma toString_defined id :
  is_number id ∨ is_string id → ∃ k, toString id = Normal k.
Proof. destruct id; intros [?|?]; try done; simpl; eauto. Qed.

(** Keys of a batch whose identifiers are all of the kind [P], on which
    [toString] is injective. *)
Lemma row_keys_NoDup_on (P : value → Prop) batch : ∀ ids,
  (∀ x y k, P x → P y → toString x = Normal k → toString y = Normal k → x = y) →
  (∀ x, P x → ∃ k, toString x = Normal k) →
  Forall2 (λ item id, get_prop item "id" = Normal id) batch ids →
  Forall P ids → NoDup ids →
  ∃ keys, row_keys batch = Normal keys ∧ NoDup keys ∧
          Forall2 (λ id k, toString id = Normal k) ids keys.
Proof.
  intros ids Hinj Hdef Hids. induction Hids as [|item id batch ids Hid _ IH].
  - intros _ _. exists []. repeat split; constructor.
  - intros HP Hnd. apply Forall_cons in HP as [HPid HP].
    apply NoDup_cons in Hnd as [Hnotin Hnd].
    destruct (IH HP Hnd) as (keys & Hkeys & Hndk & Hall).
    destruct (Hdef _ HPid) as [k Hk].
    exists (k :: keys). simpl.
    rewrite (keyExtractor_of_id _ _ Hid), Hk, Hkeys. simpl.
    split; [done|]. split; [|by constructor].
    apply NoDup_cons. split; [|done].
    intros Hin. apply Hnotin.
    clear -Hin Hall HP HPid Hk Hinj.
    induction Hall as [|id' k' ids keys Hk' _ IH']; [by apply elem_of_nil in Hin|].
    apply Forall_cons in HP as [HPid' HP].
    apply elem_of_cons in Hin as [->|Hin].
    + rewrite (Hinj id id' k' HPid HPid' Hk Hk'). by left.
    + right. by apply IH'.
Qed.

(** Identifiers of different kinds can be distinct and still give the same
    key: the number 42 and the string of its digits. *)
Lemma row_keys_mixed_kinds_collide :
  VNum 42 ≠ VStr "42" ∧
  row_keys [VObj [("id", VNum 42)]; VObj [("id", VStr "42")]]
    = Normal ["42"; "42"].
Proof. by split. Qed.

(** C8.  The key of every row is the string form of the [id] of its record:
    whenever the keys of a sequence are defined, each is [toString] of the
    [id] of the record at the same position.  For a batch whose identifiers
    are pairwise distinct, all numbers (as the API sends them) or all
    strings, the keys are defined and pairwise distinct. *)
Theorem row_keys_from_ids (batch : list value) :
  (∀ keys, row_keys batch = Normal keys →
     Forall2 (λ item k, ∃ id, get_prop item "id" = Normal id ∧
                              toString id = Normal k) batch keys) ∧
  (∀ ids : list value,
     Forall2 (λ item id, get_prop item "id" = Normal id) batch ids →
     Forall is_number ids ∨ Forall is_string ids →
     NoDup ids →
     ∃ keys, row_keys batch = Normal keys ∧ NoDup keys ∧
             Forall2 (λ id k, toString id = Normal k) ids keys).
Proof.
  split; [apply row_keys_inv|].
  intros ids Hids [Hnum|Hstr] Hnd.
  - apply (row_keys_NoDup_on (λ v, Is_true (is_number v))); try done.
    + intros x y k. apply toString_inj_numbers.
    + intros x Hx. apply toString_defined. by left.
  - apply (row_keys_NoDup_on (λ v, Is_true (is_string v))); try done.
    + intros x y k. apply toString_inj_strings.
    + intros x Hx. apply toString_defined. by right.
Qed.

Lemma row_keys_from_ids_witness :
  ∃ keys, row_keys [ada; alan] = Normal keys ∧ NoDup keys ∧
          Forall2 (λ id k, toString id = Normal k) [VNum 42; VNum 7] keys.
Proof.
  apply (proj2 (row_keys_from_ids [ada; alan]) [VNum 42; VNum 7]).
  - repeat constructor.
  - left. repeat constructor.
  - apply NoDup_cons. split.
    + intros Hin. apply list_elem_of_singleton in Hin. discriminate.
    + apply NoDup_singleton.
Defined.

(** ** Initials *)

(** C9.  On the initials platform [renderItem] indexes both names at 0
    without looking at their lengths.  For a record whose two names are
    non-empty strings both reads are in bounds and the badge shows the first
    character of the first name followed by the first character of the last
    name.  The guard is really missing: when a name is the empty string the
    read at 0 gives [undefined] and the badge shows the word "undefined" in
    its place. *)
Theorem renderItem_initials (item : value) (f l : string) :
  get_prop item "first_name" = Normal (VStr f) →
  get_prop item "last_name" = Normal (VStr l) →
  (∀ cf f' cl l', f = String cf f' → l = String cl l' →
     String.get 0 f = Some cf ∧ String.get 0 l = Some cl ∧
     Part000.renderItem "ios" item =
       Normal (Part000.mkRow (f +:+ " " +:+ l)
                 (Part000.Initials (String cf (String cl ""))))) ∧
  (∀ cl l', f = "" → l = String cl l' →
     get_index (VStr f) 0 = Normal VUndefined ∧
     Part000.renderItem "ios" item =
       Normal (Part000.mkRow (f +:+ " " +:+ l)
                 (Part000.Initials ("undefined" +:+ String cl "")))) ∧
  (∀ cf f', f = String cf f' → l = "" →
     get_index (VStr l) 0 = Normal VUndefined ∧
     Part000.renderItem "ios" item =
       Normal (Part000.mkRow (f +:+ " " +:+ l)
                 (Part000.Initials (String cf "undefined")))).
Proof.
  intros Hf Hl. unfold Part000.renderItem. rewrite Hf, Hl.
  repeat split; intros; subst; reflexivity.
Qed.

Lemma renderItem_initials_witness :
  Part000.renderItem "ios" ada =
    Normal (Part000.mkRow "Ada Lovelace" (Part000.Initials "AL")).
Proof.
  destruct (renderItem_initials ada "Ada" "Lovelace") as (H & _ & _);
    [reflexivity | reflexivity |].
  destruct (H "A"%char "da" "L"%char "ovelace") as (_ & _ & Hrow);
    [reflexivity | reflexivity |].
  exact Hrow.
Defined.

(** ** The first element of the body *)

(** C10.  The add action puts element 0 of the body in front of the
    sequence without looking at the length of the body.  When the body has
    a first element, that element is what is put in front, and when it is a
    record with a numeric [id] its key is defined.  When the body is the
    empty array, [undefined] is put in front, [keyExtractor] throws on it,
    and so do the keys of the whole sequence.  Both files behave so. *)
Theorem addUser_reads_element_0
    (net : string → axios_result) (s : state) (response : axios_response) :
  net ADD_URL = Resolved response →
  (∀ rec rest, data response = rec :: rest →
     users (run_events s (trace (App.addUser net))) = rec :: users s ∧
     users (run_events s (trace (Part000.addUser net))) = rec :: users s ∧
     ∀ n, get_prop rec "id" = Normal (VNum n) →
          keyExtractor rec = Normal (pretty n)) ∧
  (data response = [] →
     users (run_events s (trace (App.addUser net))) = VUndefined :: users s ∧
     users (run_events s (trace (Part000.addUser net)))
       = VUndefined :: users s ∧
     keyExtractor VUndefined = Throw TypeError ∧
     row_keys (VUndefined :: users s) = Throw TypeError).
Proof.
  intros H.
  rewrite (App_addUser_resolved _ _ H), (Part000_addUser_resolved _ _ H).
  simpl. split.
  - intros rec rest ->. repeat split.
    intros n Hid. by rewrite (keyExtractor_of_id _ _ Hid).
  - by intros ->.
Qed.

Lemma addUser_reads_element_0_witness :
  let s := mkState [alan] false false 0 in
  users (run_events s (trace (App.addUser (net_ok [])))) = [VUndefined; alan] ∧
  row_keys [VUndefined; alan] = Throw TypeError.
Proof.
  intros s.
  destruct (addUser_reads_element_0 (net_ok []) s (mkResponse []))
    as (_ & Hempty); [reflexivity|].
  destruct Hempty as (H1 & _ & _ & H2); [reflexivity|].
  split; [exact H1 | exact H2].
Defined.

(** ** [App.js] has no cooldown *)

(** Every refresh of [App.js] goes through, whenever it is requested: the
    handler consults no clock. *)
Lemma App_onRefresh_always_fetches (net : string → axios_result) (s : state) :
  outcome (App.onRefresh net) = Normal tt ∧
  network_calls (trace (App.onRefresh net)) = [HttpGet API_URL] ∧
  run_events s (trace (App.onRefresh net)) =
    {| users := fetched net; refreshing := false; loading := loading s;
       lastRefreshTime := lastRefreshTime s |}.
Proof.
  unfold App.onRefresh. pose proof (fetchUsers_outcome net) as Hf.
  pose proof (fetchUsers_network_calls net) as Hc.
  pose proof (fetchUsers_keeps_state net) as Hs.
  destruct (fetchUsers net) as [tr [us|e]]; simpl in *; [|discriminate].
  injection Hf as ->. split; [done|]. split.
  - unfold network_calls in *. by rewrite List.filter_app, Hc.
  - change (setRefreshing true :: ?l) with ([setRefreshing true] ++ l).
    by rewrite !run_events_app, Hs.
Qed.

(** * Further properties of the two files *)

(** ** One handler *)

Lemma fetchUsers_notifications_le net :
  (length (notifications (trace (fetchUsers net))) ≤ 1)%nat.
Proof.
  destruct (net API_URL) as [r|resp] eqn:H.
  - rewrite (fetchUsers_resolved _ _ H). simpl. lia.
  - destruct (decide (resp = Some 429)) as [->|Hne].
    + by rewrite (fetchUsers_rate_limited _ H).
    + by rewrite (fetchUsers_failed _ _ H Hne).
Qed.

Lemma loadData_step net s :
  run_events s (trace (loadData net)) =
    {| users := fetched net; refreshing := refreshing s; loading := false;
       lastRefreshTime := lastRefreshTime s |}.
Proof.
  rewrite loadData_unfold. cbn [trace fst].
  by rewrite run_events_app, fetchUsers_keeps_state.
Qed.

Lemma loadData_network_calls net :
  network_calls (trace (loadData net)) = [HttpGet API_URL].
Proof.
  rewrite loadData_unfold. cbn [trace fst].
  by rewrite network_calls_app, fetchUsers_network_calls.
Qed.

Lemma loadData_notifications net :
  notifications (trace (loadData net)) = notifications (trace (fetchUsers net)).
Proof.
  rewrite loadData_unfold. cbn [trace fst].
  rewrite notifications_app. simpl. apply app_nil_r.
Qed.

Lemma App_addUser_step net s :
  run_events s (trace (App.addUser net)) =
    match net ADD_URL with
    | Resolved response =>
        {| users := array_index (data response) 0 :: users s;
           refreshing := refreshing s; loading := loading s;
           lastRefreshTime := lastRefreshTime s |}
    | Rejected _ => s
    end.
Proof.
  destruct (net ADD_URL) as [r|resp] eqn:H.
  - by rewrite (App_addUser_resolved _ _ H).
  - by rewrite (App_addUser_rejected _ _ H).
Qed.

Lemma Part000_addUser_step net s :
  run_events s (trace (Part000.addUser net)) =
    match net ADD_URL with
    | Resolved response =>
        {| users := array_index (data response) 0 :: users s;
           refreshing := refreshing s; loading := loading s;
           lastRefreshTime := lastRefreshTime s |}
    | Rejected _ => s
    end.
Proof.
  destruct (net ADD_URL) as [r|resp] eqn:H.
  - by rewrite (Part000_addUser_resolved _ _ H).
  - rewrite (Part000_addUser_rejected _ _ H).
    by destruct (bool_decide (resp = Some 429)).
Qed.

Lemma Part000_onRefresh_step net s now :
  run_events s (trace (Part000.onRefresh net (lastRefreshTime s) now)) =
    if now - lastRefreshTime s <? 10000 then s
    else {| users := fetched net; refreshing := false; loading := loading s;
            lastRefreshTime := now |}.
Proof.
  destruct (Z.ltb_spec (now - lastRefreshTime s) 10000) as [H|H].
  - by rewrite (onRefresh_rejected _ _ _ H).
  - rewrite onRefresh_accepted_unfold by lia. cbn [trace fst].
    change (setRefreshing true :: ?l) with ([setRefreshing true] ++ l).
    by rewrite !run_events_app, fetchUsers_keeps_state.
Qed.

Lemma Part000_onRefresh_network_calls net last now :
  network_calls (trace (Part000.onRefresh net last now)) =
    if now - last <? 10000 then [] else [HttpGet API_URL].
Proof.
  destruct (Z.ltb_spec (now - last) 10000) as [H|H].
  - by rewrite (onRefresh_rejected _ _ _ H).
  - rewrite onRefresh_accepted_unfold by lia. cbn [trace fst].
    change (setRefreshing true :: ?l) with ([setRefreshing true] ++ l).
    by rewrite !network_calls_app, fetchUsers_network_calls.
Qed.

Lemma App_addUser_network_calls net :
  network_calls (trace (App.addUser net)) = [HttpGet ADD_URL].
Proof.
  destruct (net ADD_URL) as [r|resp] eqn:H.
  - by rewrite (App_addUser_resolved _ _ H).
  - by rewrite (App_addUser_rejected _ _ H).
Qed.

Lemma Part000_addUser_network_calls net :
  network_calls (trace (Part000.addUser net)) = [HttpGet ADD_URL].
Proof.
  destruct (net ADD_URL) as [r|resp] eqn:H.
  - by rewrite (Part000_addUser_resolved _ _ H).
  - rewrite (Part000_addUser_rejected _ _ H).
    by destruct (bool_decide (resp = Some 429)).
Qed.

Lemma Part000_handle_network_calls s a :
  network_calls (trace (Part000.handle s a)) =
    match a with
    | Mount _ => [HttpGet API_URL]
    | PullToRefresh _ now =>
        if now - lastRefreshTime s <? 10000 then [] else [HttpGet API_URL]
    | PressAdd _ => [HttpGet ADD_URL]
    end.
Proof.
  destruct a as [net|net now|net]; simpl.
  - apply loadData_network_calls.
  - apply Part000_onRefresh_network_calls.
  - apply Part000_addUser_network_calls.
Qed.

Lemma App_handle_network_calls s a :
  network_calls (trace (App.handle s a)) =
    [HttpGet (match a with PressAdd _ => ADD_URL | _ => API_URL end)].
Proof.
  destruct a as [net|net now|net]; simpl.
  - apply loadData_network_calls.
  - apply App_onRefresh_network_calls.
  - apply App_addUser_network_calls.
Qed.

(** X1.  In [part_000] no handler ever throws, whatever the network does
    and whenever it runs.  A handler issues one GET (to the [size=10] URL
    on mount and on an accepted pull, to the [size=1] URL on a press) except
    a pull inside the cooldown, which issues none; and it shows at most one
    alert. *)
Theorem Part000_handlers_absorb_failures (s : state) (a : action) :
  outcome (Part000.handle s a) = Normal tt ∧
  network_calls (trace (Part000.handle s a)) =
    match a with
    | Mount _ => [HttpGet API_URL]
    | PullToRefresh _ now =>
        if now - lastRefreshTime s <? 10000 then [] else [HttpGet API_URL]
    | PressAdd _ => [HttpGet ADD_URL]
    end ∧
  (length (notifications (trace (Part000.handle s a))) ≤ 1)%nat.
Proof.
  split; [|split; [apply Part000_handle_network_calls|]].
  - destruct a as [net|net now|net]; simpl.
    + by rewrite loadData_unfold.
    + destruct (Z.ltb_spec (now - lastRefreshTime s) 10000) as [H|H].
      * by rewrite (onRefresh_rejected _ _ _ H).
      * by rewrite onRefresh_accepted_unfold by lia.
    + destruct (net ADD_URL) as [r|resp] eqn:H.
      * by rewrite (Part000_addUser_resolved _ _ H).
      * by rewrite (Part000_addUser_rejected _ _ H).
  - destruct a as [net|net now|net]; simpl.
    + rewrite loadData_notifications. apply fetchUsers_notifications_le.
    + destruct (Z.ltb_spec (now - lastRefreshTime s) 10000) as [H|H].
      * by rewrite (onRefresh_rejected _ _ _ H).
      * rewrite onRefresh_accepted_unfold by lia. cbn [trace fst].
        change (setRefreshing true :: ?l) with ([setRefreshing true] ++ l).
        rewrite !notifications_app. simpl. rewrite app_nil_r.
        apply fetchUsers_notifications_le.
    + destruct (net ADD_URL) as [r|resp] eqn:H.
      * rewrite (Part000_addUser_resolved _ _ H). simpl. lia.
      * rewrite (Part000_addUser_rejected _ _ H).
        by destruct (bool_decide (resp = Some 429)).
Qed.

(** X2.  In [App.js] no handler ever throws either, and every handler
    issues exactly one GET, a pull included, whenever it comes: to the
    [size=1] URL on a press, to the [size=10] URL otherwise.  It shows at
    most one alert, and a press shows none. *)
Theorem App_handlers_absorb_failures (s : state) (a : action) :
  outcome (App.handle s a) = Normal tt ∧
  network_calls (trace (App.handle s a)) =
    [HttpGet (match a with PressAdd _ => ADD_URL | _ => API_URL end)] ∧
  (length (notifications (trace (App.handle s a))) ≤ 1)%nat ∧
  match a with
  | PressAdd _ => notifications (trace (App.handle s a)) = []
  | _ => True
  end.
Proof.
  split; [|split; [apply App_handle_network_calls|split]].
  - destruct a as [net|net now|net]; simpl.
    + by rewrite loadData_unfold.
    + by rewrite App_onRefresh_unfold.
    + destruct (net ADD_URL) as [r|resp] eqn:H.
      * by rewrite (App_addUser_resolved _ _ H).
      * by rewrite (App_addUser_rejected _ _ H).
  - destruct a as [net|net now|net]; simpl.
    + rewrite loadData_notifications. apply fetchUsers_notifications_le.
    + rewrite App_onRefresh_unfold. cbn [trace fst].
      change (setRefreshing true :: ?l) with ([setRefreshing true] ++ l).
      rewrite !notifications_app. simpl. rewrite app_nil_r.
      apply fetchUsers_notifications_le.
    + destruct (net ADD_URL) as [r|resp] eqn:H.
      * rewrite (App_addUser_resolved _ _ H). simpl. lia.
      * rewrite (App_addUser_rejected _ _ H). simpl. lia.
  - destruct a as [net|net now|net]; simpl; try done.
    destruct (net ADD_URL) as [r|resp] eqn:H.
    + by rewrite (App_addUser_resolved _ _ H).
    + by rewrite (App_addUser_rejected _ _ H).
Qed.

(** ** Runs of handlers *)

Lemma Part000_step_eq s a :
  Part000.step s a =
    match a with
    | Mount net =>
        {| users := fetched net; refreshing := refreshing s; loading := false;
           lastRefreshTime := lastRefreshTime s |}
    | PullToRefresh net now =>
        if now - lastRefreshTime s <? 10000 then s
        else {| users := fetched net; refreshing := false;
                loading := loading s; lastRefreshTime := now |}
    | PressAdd net =>
        match net ADD_URL with
        | Resolved response =>
            {| users := array_index (data response) 0 :: users s;
               refreshing := refreshing s; loading := loading s;
               lastRefreshTime := lastRefreshTime s |}
        | Rejected _ => s
        end
    end.
Proof.
  unfold Part000.step. destruct a as [net|net now|net]; simpl.
  - apply loadData_step.
  - apply Part000_onRefresh_step.
  - apply Part000_addUser_step.
Qed.

Lemma App_step_eq s a :
  App.step s a =
    match a with
    | Mount net =>
        {| users := fetched net; refreshing := refreshing s; loading := false;
           lastRefreshTime := lastRefreshTime s |}
    | PullToRefresh net _ =>
        {| users := fetched net; refreshing := false; loading := loading s;
           lastRefreshTime := lastRefreshTime s |}
    | PressAdd net =>
        match net ADD_URL with
        | Resolved response =>
            {| users := array_index (data response) 0 :: users s;
               refreshing := refreshing s; loading := loading s;
               lastRefreshTime := lastRefreshTime s |}
        | Rejected _ => s
        end
    end.
Proof.
  unfold App.step. destruct a as [net|net now|net]; simpl.
  - apply loadData_step.
  - apply App_onRefresh_step.
  - apply App_addUser_step.
Qed.

Lemma Part000_step_flags s a :
  loading s = false → refreshing s = false →
  loading (Part000.step s a) = false ∧ refreshing (Part000.step s a) = false.
Proof.
  intros Hl Hr. rewrite Part000_step_eq.
  destruct a as [net|net now|net]; simpl; try done.
  - by destruct (now - lastRefreshTime s <? 10000).
  - by destruct (net ADD_URL).
Qed.

Lemma App_step_flags s a :
  loading s = false → refreshing s = false →
  loading (App.step s a) = false ∧ refreshing (App.step s a) = false.
Proof.
  intros Hl Hr. rewrite App_step_eq.
  destruct a as [net|net now|net]; simpl; try done.
  by destruct (net ADD_URL).
Qed.

Lemma Part000_run_flags acts : ∀ s,
  loading s = false → refreshing s = false →
  loading (Part000.run s acts) = false ∧
  refreshing (Part000.run s acts) = false.
Proof.
  induction acts as [|a acts IH]; intros s Hl Hr; [done|].
  destruct (Part000_step_flags s a Hl Hr) as [Hl' Hr'].
  apply (IH _ Hl' Hr').
Qed.

Lemma App_run_flags acts : ∀ s,
  loading s = false → refreshing s = false →
  loading (App.run s acts) = false ∧ refreshing (App.run s acts) = false.
Proof.
  induction acts as [|a acts IH]; intros s Hl Hr; [done|].
  destruct (App_step_flags s a Hl Hr) as [Hl' Hr'].
  apply (IH _ Hl' Hr').
Qed.

(** X3.  The component first shows the spinner.  Once the effect of the
    mount has run, whatever its request came to, it shows the list of what
    was fetched, the refresh indicator off; and after any further pulls and
    presses, each run to its end, it still shows the list of the current
    records with the indicator off: the spinner never comes back.  Both
    files behave so. *)
Theorem list_stays_after_mount
    (net : string → axios_result) (acts : list action) :
  render initial_state = ActivityIndicator "large" "#2196F3" ∧
  render (Part000.run initial_state [Mount net]) = FlatList (fetched net) false ∧
  render (App.run initial_state [Mount net]) = FlatList (fetched net) false ∧
  render (Part000.run initial_state (Mount net :: acts)) =
    FlatList (users (Part000.run initial_state (Mount net :: acts))) false ∧
  render (App.run initial_state (Mount net :: acts)) =
    FlatList (users (App.run initial_state (Mount net :: acts))) false.
Proof.
  split; [done|].
  split; [by unfold Part000.run; simpl; rewrite Part000_step_eq|].
  split; [by unfold App.run; simpl; rewrite App_step_eq|].
  change (Part000.run initial_state (Mount net :: acts))
    with (Part000.run (Part000.step initial_state (Mount net)) acts).
  change (App.run initial_state (Mount net :: acts))
    with (App.run (App.step initial_state (Mount net)) acts).
  unfold render. split.
  - destruct (Part000_run_flags acts (Part000.step initial_state (Mount net)))
      as [-> ->]; by rewrite ?Part000_step_eq.
  - destruct (App_run_flags acts (App.step initial_state (Mount net)))
      as [-> ->]; by rewrite ?App_step_eq.
Qed.

Lemma spaced_last prev times :
  spaced prev times → prev ≤ default prev (last times).
Proof.
  revert prev. induction times as [|t times IH]; intros prev; simpl; [lia|].
  intros [Ht Hrest]. specialize (IH _ Hrest). rewrite last_cons.
  destruct (last times) as [t'|]; simpl in *; lia.
Qed.

Lemma refresh_fetch_times_spaced acts : ∀ s,
  spaced (lastRefreshTime s) (Part000.refresh_fetch_times s acts) ∧
  lastRefreshTime (Part000.run s acts) =
    default (lastRefreshTime s) (last (Part000.refresh_fetch_times s acts)).
Proof.
  induction acts as [|a acts IH]; intros s; [done|].
  unfold Part000.run. cbn [foldl].
  fold (Part000.run (Part000.step s a) acts).
  specialize (IH (Part000.step s a)). destruct IH as [IH1 IH2].
  rewrite IH2. clear IH2.
  destruct a as [net|net now|net]; cbn [Part000.refresh_fetch_times].
  - by rewrite Part000_step_eq in *.
  - cbn [Part000.handle]. rewrite Part000_onRefresh_network_calls.
    rewrite Part000_step_eq in *.
    destruct (Z.ltb_spec (now - lastRefreshTime s) 10000) as [H|H]; [done|].
    simpl in *. split; [split; [lia|done]|].
    rewrite last_cons. by destruct (last _).
  - rewrite Part000_step_eq in *. by destruct (net ADD_URL).
Qed.

(** X4.  In [part_000], however the clock reads and whatever the network
    does, over any run of mounts, pulls and presses, each run to its end:
    the pulls that reach the network have clock readings at least 10000 ms
    apart, the first one at least 10000 past the time the run starts with;
    the recorded time at the end is the reading of the last such pull (or
    the starting one when there is none); and it never moves backwards. *)
Theorem refresh_fetches_are_spaced (s : state) (acts : list action) :
  spaced (lastRefreshTime s) (Part000.refresh_fetch_times s acts) ∧
  lastRefreshTime (Part000.run s acts) =
    default (lastRefreshTime s) (last (Part000.refresh_fetch_times s acts)) ∧
  lastRefreshTime s ≤ lastRefreshTime (Part000.run s acts).
Proof.
  destruct (refresh_fetch_times_spaced acts s) as [H1 H2].
  split; [done|]. split; [done|]. rewrite H2. by apply spaced_last.
Qed.

(** X5.  In [App.js] nothing limits the requests: over any run of actions,
    however close in time, as many GETs are issued as there are actions. *)
Theorem App_every_action_fetches (s : state) (acts : list action) :
  length (network_calls (App.run_trace s acts)) = length acts.
Proof.
  revert s. induction acts as [|a acts IH]; intros s; [done|].
  simpl. rewrite network_calls_app, length_app, App_handle_network_calls.
  simpl. by rewrite IH.
Qed.

(** X6.  The initial load does not start the cooldown: it leaves the
    recorded time at 0, so the first pull after it goes through as soon as
    the clock reads 10000 or more (as any real clock does), replacing what
    the load had fetched. *)
Theorem first_pull_after_load_is_accepted
    (net net' : string → axios_result) (now : Z) :
  10000 ≤ now →
  lastRefreshTime (Part000.step initial_state (Mount net)) = 0 ∧
  network_calls
    (trace (Part000.handle (Part000.step initial_state (Mount net))
                           (PullToRefresh net' now)))
    = [HttpGet API_URL] ∧
  Part000.run initial_state [Mount net; PullToRefresh net' now] =
    {| users := fetched net'; refreshing := false; loading := false;
       lastRefreshTime := now |}.
Proof.
  intros H. rewrite Part000_handle_network_calls.
  unfold Part000.run. cbn [foldl]. rewrite !Part000_step_eq. simpl.
  destruct (Z.ltb_spec (now - 0) 10000); [lia|done].
Qed.

Lemma first_pull_after_load_is_accepted_witness :
  Part000.run initial_state
    [Mount (net_ok [ada]); PullToRefresh (net_ok [alan]) 10000]
  = mkState [alan] false false 10000.
Proof.
  destruct (first_pull_after_load_is_accepted (net_ok [ada]) (net_ok [alan])
              10000) as (_ & _ & H); [lia | exact H].
Defined.

(** X7.  A pull that goes through while the request fails empties the
    list, whatever it held, and still records its time; a second pull less
    than 10000 ms later is then turned away without a request, so the list
    stays empty. *)
Theorem failed_refresh_empties_and_arms_cooldown
    (s : state) (net net' : string → axios_result)
    (response : option Z) (now now' : Z) :
  ¬ now - lastRefreshTime s < 10000 →
  net API_URL = Rejected response →
  now' - now < 10000 →
  let s1 := Part000.step s (PullToRefresh net now) in
  users s1 = [] ∧ lastRefreshTime s1 = now ∧
  network_calls (trace (Part000.handle s1 (PullToRefresh net' now'))) = [] ∧
  Part000.step s1 (PullToRefresh net' now') = s1.
Proof.
  intros H Hnet H' s1. subst s1.
  rewrite Part000_handle_network_calls, !Part000_step_eq.
  destruct (Z.ltb_spec (now - lastRefreshTime s) 10000); [lia|]. simpl.
  destruct (Z.ltb_spec (now' - now) 10000); [|lia].
  unfold fetched. by rewrite Hnet.
Qed.

Lemma failed_refresh_empties_and_arms_cooldown_witness :
  let s := mkState [ada; alan] false false 0 in
  let s1 := Part000.step s (PullToRefresh (net_down (Some 500)) 20000) in
  users s1 = [] ∧
  Part000.step s1 (PullToRefresh (net_ok [ada]) 29999) = s1.
Proof.
  intros s s1.
  destruct (failed_refresh_empties_and_arms_cooldown
              s (net_down (Some 500)) (net_ok [ada]) (Some 500) 20000 29999)
    as (H1 & _ & _ & H2); [simpl; lia | reflexivity | lia |].
  split; [exact H1 | exact H2].
Defined.

Lemma Part000_run_presses acts : ∀ s,
  Forall is_press acts →
  Part000.run s acts =
    {| users := reverse (omap added_record acts) ++ users s;
       refreshing := refreshing s; loading := loading s;
       lastRefreshTime := lastRefreshTime s |}.
Proof.
  induction acts as [|a acts IH]; intros s Hall.
  - by destruct s.
  - apply Forall_cons in Hall as [Ha Hall].
    change (Part000.run s (a :: acts))
      with (Part000.run (Part000.step s a) acts).
    rewrite (IH _ Hall), Part000_step_eq.
    destruct a as [net|net now|net]; try done. simpl.
    destruct (net ADD_URL) as [r|resp]; simpl; [|done].
    by rewrite reverse_cons, <- app_assoc.
Qed.

Lemma App_run_presses acts : ∀ s,
  Forall is_press acts →
  App.run s acts =
    {| users := reverse (omap added_record acts) ++ users s;
       refreshing := refreshing s; loading := loading s;
       lastRefreshTime := lastRefreshTime s |}.
Proof.
  induction acts as [|a acts IH]; intros s Hall.
  - by destruct s.
  - apply Forall_cons in Hall as [Ha Hall].
    change (App.run s (a :: acts)) with (App.run (App.step s a) acts).
    rewrite (IH _ Hall), App_step_eq.
    destruct a as [net|net now|net]; try done. simpl.
    destruct (net ADD_URL) as [r|resp]; simpl; [|done].
    by rewrite reverse_cons, <- app_assoc.
Qed.

(** X8.  Over any run of presses on the button, some of whose requests may
    fail, the records received pile up in front of the list, the most
    recent first, above the records that were there, which keep their
    order; a failed press adds nothing, and nothing else of the state
    changes.  Both files behave so. *)
Theorem presses_stack_most_recent_first (s : state) (acts : list action) :
  Forall is_press acts →
  Part000.run s acts =
    {| users := reverse (omap added_record acts) ++ users s;
       refreshing := refreshing s; loading := loading s;
       lastRefreshTime := lastRefreshTime s |} ∧
  App.run s acts =
    {| users := reverse (omap added_record acts) ++ users s;
       refreshing := refreshing s; loading := loading s;
       lastRefreshTime := lastRefreshTime s |}.
Proof.
  intros H. split; [by apply Part000_run_presses | by apply App_run_presses].
Qed.

Lemma presses_stack_most_recent_first_witness :
  users (App.run (mkState [] false false 0)
           [PressAdd (net_ok [ada]); PressAdd (net_down None);
            PressAdd (net_ok [alan])])
  = [alan; ada].
Proof.
  destruct (presses_stack_most_recent_first (mkState [] false false 0)
              [PressAdd (net_ok [ada]); PressAdd (net_down None);
               PressAdd (net_ok [alan])]) as [_ H].
  - repeat constructor.
  - rewrite H. reflexivity.
Defined.

(** ** Keys after an addition *)

Lemma row_keys_elem items : ∀ keys item k,
  row_keys items = Normal keys → item ∈ items →
  keyExtractor item = Normal k → k ∈ keys.
Proof.
  induction items as [|x items IH]; intros keys item k Hkeys Hin Hk.
  - by apply elem_of_nil in Hin.
  - simpl in Hkeys. destruct (keyExtractor x) as [kx|e] eqn:Hx; [|done].
    simpl in Hkeys. destruct (row_keys items) as [ks|e]; [|done].
    simpl in Hkeys. injection Hkeys as <-.
    apply elem_of_cons in Hin as [->|Hin].
    + rewrite Hx in Hk. injection Hk as ->. by left.
    + right. by apply (IH ks item).
Qed.

(** X9.  The add action does not look at what the list holds: when the
    record received has the key of a record already listed (the API sent
    the same [id] again), it is put in front all the same, and the keys of
    the list, the new one first, are no longer pairwise distinct.  Both
    files behave so. *)
Theorem add_existing_record_duplicates_key
    (net : string → axios_result) (s : state) (response : axios_response)
    (rec : value) (rest : list value) (item : value) (k : string)
    (keys : list string) :
  net ADD_URL = Resolved response →
  data response = rec :: rest →
  item ∈ users s →
  keyExtractor item = Normal k →
  keyExtractor rec = Normal k →
  row_keys (users s) = Normal keys →
  row_keys (users (Part000.step s (PressAdd net))) = Normal (k :: keys) ∧
  row_keys (users (App.step s (PressAdd net))) = Normal (k :: keys) ∧
  ¬ NoDup (k :: keys).
Proof.
  intros Hnet Hdata Hin Hitem Hrec Hkeys.
  rewrite Part000_step_eq, App_step_eq, Hnet, Hdata. cbn [users].
  change (array_index (rec :: rest) 0) with rec. cbn [row_keys].
  rewrite Hrec, Hkeys. split; [done|]. split; [done|].
  intros Hnd. apply NoDup_cons in Hnd as [Hnotin _].
  apply Hnotin. by apply (row_keys_elem (users s) keys item).
Qed.

Lemma add_existing_record_duplicates_key_witness :
  row_keys (users (App.step (mkState [alan; ada] false false 0)
                            (PressAdd (net_ok [ada]))))
  = Normal ["42"; "7"; "42"].
Proof.
  assert (Hin : ada ∈ [alan; ada]) by (right; left).
  exact (proj1 (proj2 (add_existing_record_duplicates_key
                         (net_ok [ada]) (mkState [alan; ada] false false 0)
                         (mkResponse [ada]) ada [] ada "42" ["7"; "42"]
                         eq_refl eq_refl Hin eq_refl eq_refl eq_refl))).
Defined.

(** ** What a row needs *)

Lemma keyExtractor_needs_id item k :
  keyExtractor item = Normal k →
  ∃ fields, item = VObj fields ∧
            lookup_field "id" fields ≠ VUndefined ∧
            lookup_field "id" fields ≠ VNull.
Proof.
  destruct item as [| | | | | |fields]; try done.
  intros H. exists fields. split; [done|]. unfold keyExtractor in H.
  simpl in H. by destruct (lookup_field "id" fields).
Qed.

(** X10.  [keyExtractor] gives a key only to an object whose [id] is
    neither [undefined] (a missing property) nor [null]; on anything else
    it throws.  So when the keys of a list are defined there is one per
    item, and every item is such an object. *)
Theorem keys_need_ids (items : list value) (keys : list string) :
  row_keys items = Normal keys →
  length keys = length items ∧
  Forall (λ item, ∃ fields, item = VObj fields ∧
                            lookup_field "id" fields ≠ VUndefined ∧
                            lookup_field "id" fields ≠ VNull) items.
Proof.
  revert keys. induction items as [|x items IH]; intros keys H; simpl in H.
  - injection H as <-. by split.
  - destruct (keyExtractor x) as [k|e] eqn:Hx; [|done]. simpl in H.
    destruct (row_keys items) as [ks|e]; [|done]. simpl in H.
    injection H as <-. destruct (IH ks eq_refl) as [Hlen Hall].
    split; [simpl; by rewrite Hlen|].
    constructor; [by apply (keyExtractor_needs_id x k)|done].
Qed.

Lemma keys_need_ids_witness :
  length ["42"; "7"] = length [ada; alan].
Proof.
  destruct (keys_need_ids [ada; alan] ["42"; "7"]) as [H _];
    [reflexivity | exact H].
Defined.

(** X11.  On the initials platform [part_000] draws a row only for an
    object whose [first_name] and [last_name] are both neither [undefined]
    (a missing property) nor [null]: on every other item, the [undefined]
    an empty body puts in the list included, [renderItem] throws. *)
Theorem renderItem_ios_needs_names (item : value) (r : Part000.row) :
  Part000.renderItem "ios" item = Normal r →
  ∃ fields, item = VObj fields ∧
    lookup_field "first_name" fields ≠ VUndefined ∧
    lookup_field "first_name" fields ≠ VNull ∧
    lookup_field "last_name" fields ≠ VUndefined ∧
    lookup_field "last_name" fields ≠ VNull.
Proof.
  destruct item as [| | | | | |fields]; try done.
  intros H. exists fields. split; [done|].
  unfold Part000.renderItem in H. simpl in H.
  destruct (to_string (lookup_field "first_name" fields)) as [s1|e1] eqn:H1;
    [|done].
  simpl in H.
  destruct (to_string (lookup_field "last_name" fields)) as [s2|e2] eqn:H2;
    [|done].
  simpl in H.
  destruct (lookup_field "first_name" fields) as [| | | | | |] eqn:Hf;
    try done;
    simpl in H;
    destruct (lookup_field "last_name" fields) as [| | | | | |] eqn:Hl;
    try done;
    repeat match type of H with
           | context [to_string ?v] => destruct (to_string v); simpl in H
           end; try done.
Qed.

Lemma renderItem_ios_needs_names_witness :
  ∃ fields, ada = VObj fields ∧
    lookup_field "first_name" fields ≠ VUndefined ∧
    lookup_field "first_name" fields ≠ VNull ∧
    lookup_field "last_name" fields ≠ VUndefined ∧
    lookup_field "last_name" fields ≠ VNull.
Proof.
  apply (renderItem_ios_needs_names ada
           (Part000.mkRow "Ada Lovelace" (Part000.Initials "AL"))).
  reflexivity.
Defined.

(** X12.  Off the initials platform [part_000] reads no character of the
    names: for every object whose two names have a string form (strings,
    empty ones included, but also a missing name, which reads "undefined")
    the row shows the two string forms around a space and the image whose
    address is the [avatar] of the object, [undefined] when it has none. *)
Theorem renderItem_elsewhere_reads_no_character
    (OS : string) (fields : list (string * value)) (a b : string) :
  OS ≠ "ios" →
  to_string (lookup_field "first_name" fields) = Normal a →
  to_string (lookup_field "last_name" fields) = Normal b →
  Part000.renderItem OS (VObj fields) =
    Normal (Part000.mkRow (a +:+ " " +:+ b)
              (Part000.Image (lookup_field "avatar" fields))).
Proof.
  intros HOS Ha Hb. apply String.eqb_neq in HOS.
  unfold Part000.renderItem, get_prop, mbind, completion_mbind.
  cbn [completion_bind]. rewrite Ha. cbn [completion_bind].
  rewrite Hb. cbn [completion_bind]. by rewrite HOS.
Qed.

Lemma renderItem_elsewhere_reads_no_character_witness :
  Part000.renderItem "android"
    (VObj [("id", VNum 3); ("first_name", VStr ""); ("avatar", VStr "u")]) =
  Normal (Part000.mkRow " undefined" (Part000.Image (VStr "u"))).
Proof.
  apply (renderItem_elsewhere_reads_no_character "android"
           [("id", VNum 3); ("first_name", VStr ""); ("avatar", VStr "u")]
           "" "undefined"); [discriminate | reflexivity | reflexivity].
Defined.

(** X13.  [App.js] never reads a character of the names either, on any
    platform: for every object whose two names have a string form the row
    shows the two string forms around a space; on the initials platform
    the avatar component is handed that same text as its name, elsewhere
    the [avatar] of the object as its source, with size 50 in both. *)
Theorem App_renderItem_rows
    (OS : string) (fields : list (string * value)) (a b : string) :
  to_string (lookup_field "first_name" fields) = Normal a →
  to_string (lookup_field "last_name" fields) = Normal b →
  App.renderItem OS (VObj fields) =
    Normal (App.mkRow (a +:+ " " +:+ b)
              (if String.eqb OS "ios"
               then App.UserAvatar_name 50 (a +:+ " " +:+ b)
               else App.UserAvatar_src 50 (lookup_field "avatar" fields))).
Proof.
  intros Ha Hb.
  unfold App.renderItem, get_prop, mbind, completion_mbind.
  cbn [completion_bind]. rewrite Ha. cbn [completion_bind].
  rewrite Hb. cbn [completion_bind].
  rewrite ?Ha, ?Hb. by destruct (String.eqb OS "ios").
Qed.

Lemma App_renderItem_rows_witness :
  App.renderItem "ios"
    (VObj [("id", VNum 3); ("first_name", VStr ""); ("last_name", VStr "Doe")])
  = Normal (App.mkRow " Doe" (App.UserAvatar_name 50 " Doe")).
Proof.
  apply (App_renderItem_rows "ios"
           [("id", VNum 3); ("first_name", VStr ""); ("last_name", VStr "Doe")]
           "" "Doe"); reflexivity.
Defined.

(** ** Alerts *)

Lemma fetchUsers_notifications_count net :
  length (notifications (trace (fetchUsers net))) =
    match net API_URL with Resolved _ => 0%nat | Rejected _ => 1%nat end.
Proof.
  destruct (net API_URL) as [r|resp] eqn:H.
  - by rewrite (fetchUsers_resolved _ _ H).
  - destruct (decide (resp = Some 429)) as [->|Hne].
    + by rewrite (fetchUsers_rate_limited _ H).
    + by rewrite (fetchUsers_failed _ _ H Hne).
Qed.

(** X14.  In [part_000] a handler shows an alert exactly when something
    went wrong: one alert when a pull is turned away by the cooldown, one
    when the request of the handler is rejected, and none when the request
    resolves. *)
Theorem Part000_alert_iff_trouble (s : state) (a : action) :
  length (notifications (trace (Part000.handle s a))) =
    match a with
    | PullToRefresh _ now =>
        if now - lastRefreshTime s <? 10000 then 1%nat
        else match request_of a with Resolved _ => 0%nat | Rejected _ => 1%nat end
    | _ => match request_of a with Resolved _ => 0%nat | Rejected _ => 1%nat end
    end.
Proof.
  destruct a as [net|net now|net]; simpl.
  - rewrite loadData_notifications. apply fetchUsers_notifications_count.
  - destruct (Z.ltb_spec (now - lastRefreshTime s) 10000) as [H|H].
    + by rewrite (onRefresh_rejected _ _ _ H).
    + rewrite onRefresh_accepted_unfold by lia. cbn [trace fst].
      change (setRefreshing true :: ?l) with ([setRefreshing true] ++ l).
      rewrite !notifications_app. simpl. rewrite app_nil_r.
      apply fetchUsers_notifications_count.
  - destruct (net ADD_URL) as [r|resp] eqn:H.
    + by rewrite (Part000_addUser_resolved _ _ H).
    + rewrite (Part000_addUser_rejected _ _ H).
      by destruct (bool_decide (resp = Some 429)).
Qed.
